(** * Boostly AE commission calculator: the payout computation of [src/App.js]

    The development embeds the [computed] closure of [CommissionCalculatorApp]
    (the body of its [useMemo]) together with the helpers it calls, [toNumber]
    and [clampPct], and proves the properties of the payout breakdown.

    Numbers.  A JavaScript number is modelled by [number]: an exact rational,
    or one of the three special values [Infinity], [-Infinity] and [NaN],
    with the arithmetic, the comparisons and [Math.min]/[Math.max]/[Math.floor]
    behaving on the special values as they do in JavaScript.  Binary rounding,
    overflow to infinity and the sign of zero are not modelled: a finite
    value is the exact rational.

    Raw input.  Every field of the React state that feeds the computation is
    either its numeric default or the text of an input element; [toNumber]
    starts with [String(v)], so the state is modelled by that text. *)

From Stdlib Require Import QArith Qminmax Qround Qpower Lqa Lia ZArith Bool.
From Stdlib Require Import Ascii String DecimalString DecimalZ.

Local Open Scope Q_scope.

(** ** JavaScript numbers *)

Inductive number : Type :=
| Fin (q : Q)
| PosInf
| NegInf
| NaN.

Declare Scope num_scope.
Delimit Scope num_scope with num.
Bind Scope num_scope with number.

Module Num.

(** The order of two numbers; [None] when one of them is [NaN]. *)
Definition compare (x y : number) : option comparison :=
  match x, y with
  | NaN, _ | _, NaN => None
  | Fin a, Fin b => Some (a ?= b)
  | PosInf, PosInf | NegInf, NegInf => Some Eq
  | PosInf, _ | _, NegInf => Some Gt
  | NegInf, _ | _, PosInf => Some Lt
  end.

Definition ltb (x y : number) : bool :=
  match compare x y with Some Lt => true | _ => false end.
Definition leb (x y : number) : bool :=
  match compare x y with Some Lt | Some Eq => true | _ => false end.
Definition gtb (x y : number) : bool := ltb y x.
Definition geb (x y : number) : bool := leb y x.

(** [x === y] on numbers: [NaN] is equal to nothing. *)
Definition eqb (x y : number) : bool :=
  match compare x y with Some Eq => true | _ => false end.

Definition opp (x : number) : number :=
  match x with
  | Fin a => Fin (- a)
  | PosInf => NegInf
  | NegInf => PosInf
  | NaN => NaN
  end.

Definition add (x y : number) : number :=
  match x, y with
  | NaN, _ | _, NaN => NaN
  | Fin a, Fin b => Fin (a + b)
  | PosInf, NegInf | NegInf, PosInf => NaN
  | PosInf, _ | _, PosInf => PosInf
  | NegInf, _ | _, NegInf => NegInf
  end.

Definition sub (x y : number) : number := add x (opp y).

(** An infinity of the sign of [x] scaled by the sign [s] of the other
    operand. *)
Definition scale_inf (x : number) (s : comparison) : number :=
  match s with
  | Gt => x
  | Lt => opp x
  | Eq => NaN
  end.

Definition mul (x y : number) : number :=
  match x, y with
  | NaN, _ | _, NaN => NaN
  | Fin a, Fin b => Fin (a * b)
  | Fin a, _ => scale_inf y (a ?= 0)
  | _, Fin b => scale_inf x (b ?= 0)
  | PosInf, _ => y
  | NegInf, _ => opp y
  end.

(** Division; a zero divisor is the positive zero. *)
Definition div (x y : number) : number :=
  match x, y with
  | NaN, _ | _, NaN => NaN
  | Fin a, Fin b =>
      match b ?= 0 with
      | Eq => scale_inf PosInf (a ?= 0)
      | _ => Fin (a / b)
      end
  | Fin _, _ => Fin 0
  | _, Fin b => match b ?= 0 with Lt => opp x | _ => x end
  | _, _ => NaN
  end.

Definition isNaN (x : number) : bool :=
  match x with NaN => true | _ => false end.

Definition isFinite (x : number) : bool :=
  match x with Fin _ => true | _ => false end.

(** The rational a finite number stands for (0 on the special values). *)
Definition val (x : number) : Q :=
  match x with Fin a => a | _ => 0 end.

End Num.

Infix "+" := Num.add : num_scope.
Infix "-" := Num.sub : num_scope.
Infix "*" := Num.mul : num_scope.
Infix "/" := Num.div : num_scope.
Infix "<?" := Num.ltb (at level 70, no associativity) : num_scope.
Infix "<=?" := Num.leb (at level 70, no associativity) : num_scope.
Infix ">?" := Num.gtb (at level 70, no associativity) : num_scope.
Infix ">=?" := Num.geb (at level 70, no associativity) : num_scope.
Infix "===" := Num.eqb (at level 70, no associativity) : num_scope.

(** [Math.max], [Math.min] (two arguments) and [Math.floor]. *)
Definition Math_max (x y : number) : number :=
  match Num.compare x y with
  | None => NaN
  | Some Lt => y
  | Some _ => x
  end.

Definition Math_min (x y : number) : number :=
  match Num.compare x y with
  | None => NaN
  | Some Gt => y
  | Some _ => x
  end.

Definition Math_floor (x : number) : number :=
  match x with
  | Fin a => Fin (inject_Z (Qfloor a))
  | _ => x
  end.

(** ** Text to number: [String.prototype.replace] with [/[^0-9.-]/g] and
    [parseFloat] *)

Definition is_digit (c : ascii) : bool :=
  let n := nat_of_ascii c in (48 <=? n)%nat && (n <=? 57)%nat.

Definition digit_val (c : ascii) : Z := Z.of_nat (nat_of_ascii c) - 48.

(** The character class [0-9.-] of the regular expression. *)
Definition kept (c : ascii) : bool :=
  is_digit c || Ascii.eqb c "." || Ascii.eqb c "-".

(** [s.replace(/[^0-9.-]/g, "")]: every character outside the class is
    deleted. *)
Fixpoint strip (s : string) : string :=
  match s with
  | EmptyString => EmptyString
  | String c s' => if kept c then String c (strip s') else strip s'
  end.

(** White space skipped by [parseFloat] (the ASCII part of it). *)
Definition is_space (c : ascii) : bool :=
  let n := nat_of_ascii c in
  ((9 <=? n)%nat && (n <=? 13)%nat) || (n =? 32)%nat.

Fixpoint trim_start (s : string) : string :=
  match s with
  | String c s' => if is_space c then trim_start s' else s
  | EmptyString => s
  end.

(** The longest run of decimal digits at the head of [s]: the digits read
    are appended to the numeral [acc], [n] counts them. *)
Fixpoint digits (s : string) (acc : Z) (n : nat) : Z * nat * string :=
  match s with
  | String c s' =>
      if is_digit c then digits s' (10 * acc + digit_val c)%Z (S n)
      else (acc, n, s)
  | EmptyString => (acc, n, s)
  end.

(** An optional sign: [true] for [-]. *)
Definition sign (s : string) : bool * string :=
  match s with
  | String "-" s' => (true, s')
  | String "+" s' => (false, s')
  | _ => (false, s)
  end.

(** The exponent part [e±ddd], 0 when there is none. *)
Definition exponent (s : string) : Z :=
  match s with
  | String c s' =>
      if Ascii.eqb c "e" || Ascii.eqb c "E" then
        let (neg, r) := sign s' in
        let '(e, n, _) := digits r 0%Z 0%nat in
        match n with
        | O => 0%Z
        | S _ => if neg then (- e)%Z else e
        end
      else 0%Z
  | EmptyString => 0%Z
  end.

(** [parseFloat]: the longest prefix of the trimmed text that is a decimal
    literal, [NaN] when there is none. *)
Definition parseFloat (s : string) : number :=
  let (neg, r) := sign (trim_start s) in
  if String.prefix "Infinity" r then (if neg then NegInf else PosInf)
  else
    let '(ip, ni, r1) := digits r 0%Z 0%nat in
    let '(m, nf, r2) :=
      match r1 with
      | String "." r1' => digits r1' ip 0%nat
      | _ => (ip, 0%nat, r1)
      end in
    match (ni + nf)%nat with
    | O => NaN
    | S _ =>
        let v := inject_Z m * 10 ^ (exponent r2 - Z.of_nat nf) in
        Fin (if neg then - v else v)
    end.

(** ** The helpers of [CommissionCalculatorApp] *)

Definition toNumber (v : string) : number :=
  let n := parseFloat (strip v) in
  if Num.isNaN n then Fin 0 else n.

Definition clampPct (n : number) : number :=
  Math_min (Fin 100) (Math_max (Fin 0) n).

(** ** The React state read by the computation *)

Module State.

(** Each numeric field holds [String(v)] for the value [v] of the state
    variable of that name. *)
Record t : Type := mk {
  quotaARR : string;
  basePayoutAt100 : string;
  bundle20Bonus : string;
  bundle35Bonus : string;
  arrSold : string;
  totalDeals : string;
  bundleCount : string;
  prepaidKicker : string;
  clawbacks : string;
  useOverQuotaBundleShare : bool;
  overQuotaBundleSharePct : string
}.

(** The [useState] defaults. *)
Definition initial : t :=
  {| quotaARR := "72000";
     basePayoutAt100 := "5833";
     bundle20Bonus := "500";
     bundle35Bonus := "1000";
     arrSold := "93600";
     totalDeals := "22";
     bundleCount := "7";
     prepaidKicker := "100";
     clawbacks := "0";
     useOverQuotaBundleShare := false;
     overQuotaBundleSharePct := "0" |}.

(** The state setters; each replaces one field. *)
Definition setQuotaARR (v : string) (s : t) : t :=
  mk v (basePayoutAt100 s) (bundle20Bonus s) (bundle35Bonus s) (arrSold s)
    (totalDeals s) (bundleCount s) (prepaidKicker s) (clawbacks s)
    (useOverQuotaBundleShare s) (overQuotaBundleSharePct s).

Definition setBasePayoutAt100 (v : string) (s : t) : t :=
  mk (quotaARR s) v (bundle20Bonus s) (bundle35Bonus s) (arrSold s)
    (totalDeals s) (bundleCount s) (prepaidKicker s) (clawbacks s)
    (useOverQuotaBundleShare s) (overQuotaBundleSharePct s).

Definition setBundle20Bonus (v : string) (s : t) : t :=
  mk (quotaARR s) (basePayoutAt100 s) v (bundle35Bonus s) (arrSold s)
    (totalDeals s) (bundleCount s) (prepaidKicker s) (clawbacks s)
    (useOverQuotaBundleShare s) (overQuotaBundleSharePct s).

Definition setBundle35Bonus (v : string) (s : t) : t :=
  mk (quotaARR s) (basePayoutAt100 s) (bundle20Bonus s) v (arrSold s)
    (totalDeals s) (bundleCount s) (prepaidKicker s) (clawbacks s)
    (useOverQuotaBundleShare s) (overQuotaBundleSharePct s).

Definition setArrSold (v : string) (s : t) : t :=
  mk (quotaARR s) (basePayoutAt100 s) (bundle20Bonus s) (bundle35Bonus s) v
    (totalDeals s) (bundleCount s) (prepaidKicker s) (clawbacks s)
    (useOverQuotaBundleShare s) (overQuotaBundleSharePct s).

Definition setTotalDeals (v : string) (s : t) : t :=
  mk (quotaARR s) (basePayoutAt100 s) (bundle20Bonus s) (bundle35Bonus s)
    (arrSold s) v (bundleCount s) (prepaidKicker s) (clawbacks s)
    (useOverQuotaBundleShare s) (overQuotaBundleSharePct s).

Definition setBundleCount (v : string) (s : t) : t :=
  mk (quotaARR s) (basePayoutAt100 s) (bundle20Bonus s) (bundle35Bonus s)
    (arrSold s) (totalDeals s) v (prepaidKicker s) (clawbacks s)
    (useOverQuotaBundleShare s) (overQuotaBundleSharePct s).

Definition setPrepaidKicker (v : string) (s : t) : t :=
  mk (quotaARR s) (basePayoutAt100 s) (bundle20Bonus s) (bundle35Bonus s)
    (arrSold s) (totalDeals s) (bundleCount s) v (clawbacks s)
    (useOverQuotaBundleShare s) (overQuotaBundleSharePct s).

Definition setClawbacks (v : string) (s : t) : t :=
  mk (quotaARR s) (basePayoutAt100 s) (bundle20Bonus s) (bundle35Bonus s)
    (arrSold s) (totalDeals s) (bundleCount s) (prepaidKicker s) v
    (useOverQuotaBundleShare s) (overQuotaBundleSharePct s).

Definition setUseOverQuotaBundleShare (v : bool) (s : t) : t :=
  mk (quotaARR s) (basePayoutAt100 s) (bundle20Bonus s) (bundle35Bonus s)
    (arrSold s) (totalDeals s) (bundleCount s) (prepaidKicker s)
    (clawbacks s) v (overQuotaBundleSharePct s).

Definition setOverQuotaBundleSharePct (v : string) (s : t) : t :=
  mk (quotaARR s) (basePayoutAt100 s) (bundle20Bonus s) (bundle35Bonus s)
    (arrSold s) (totalDeals s) (bundleCount s) (prepaidKicker s)
    (clawbacks s) (useOverQuotaBundleShare s) v.

End State.

(** ** The breakdown returned by [computed] *)

Module Breakdown.

Record t : Type := mk {
  arr : number;
  quotaArr : number;
  attainment : number;
  basePayout : number;
  bundlePct : number;
  bundleBonus : number;
  overARR : number;
  accelerator : number;
  kicker : number;
  clawbacks : number;
  total : number
}.

End Breakdown.

(** ** The body of [computed], one definition per local of the source *)

Section Computed.

Variable st : State.t.

Local Open Scope num_scope.

Definition quotaArr : number := Math_max (Fin 0) (toNumber (State.quotaARR st)).
Definition baseAt100 : number :=
  Math_max (Fin 0) (toNumber (State.basePayoutAt100 st)).
Definition arr : number := Math_max (Fin 0) (toNumber (State.arrSold st)).

Definition attainment : number :=
  if quotaArr >? Fin 0 then arr / quotaArr else Fin 0.

Definition basePayout : number := Math_min (Fin 1) attainment * baseAt100.

Definition deals : number :=
  Math_max (Fin 0) (Math_floor (toNumber (State.totalDeals st))).
Definition bundles : number :=
  Math_max (Fin 0) (Math_floor (toNumber (State.bundleCount st))).
Definition bundlePct : number :=
  if deals >? Fin 0 then bundles / deals else Fin 0.

Definition bundleBonus : number :=
  if bundlePct >=? Fin 0.35 then toNumber (State.bundle35Bonus st)
  else if bundlePct >=? Fin 0.20 then toNumber (State.bundle20Bonus st)
  else Fin 0.

Definition overARR : number := Math_max (Fin 0) (arr - quotaArr).

(** [share] is the local of the [if (useOverQuotaBundleShare)] block. *)
Definition share : number :=
  clampPct (toNumber (State.overQuotaBundleSharePct st)) / Fin 100.

Definition accelerator : number :=
  let accelerator := (overARR / Fin 12) * Fin 1.25 in
  if State.useOverQuotaBundleShare st
  then accelerator + (overARR / Fin 12) * share * Fin 0.25
  else accelerator.

Definition kicker : number := toNumber (State.prepaidKicker st).
Definition cb : number := toNumber (State.clawbacks st).

Definition total : number :=
  basePayout + bundleBonus + accelerator + kicker - cb.

Definition computed : Breakdown.t :=
  {| Breakdown.arr := arr;
     Breakdown.quotaArr := quotaArr;
     Breakdown.attainment := attainment;
     Breakdown.basePayout := basePayout;
     Breakdown.bundlePct := bundlePct;
     Breakdown.bundleBonus := bundleBonus;
     Breakdown.overARR := overARR;
     Breakdown.accelerator := accelerator;
     Breakdown.kicker := kicker;
     Breakdown.clawbacks := cb;
     Breakdown.total := total |}.

End Computed.

(** ** Auxiliary notions of the proofs *)

(** Text over the character class [0-9.-]. *)
Fixpoint all_kept (s : string) : bool :=
  match s with
  | EmptyString => true
  | String c s' => kept c && all_kept s'
  end.

(** The rational [toNumber] returns. *)
Definition toQ (v : string) : Q := Num.val (toNumber v).

(** The ratio [q > 0 ? a / q : 0] of two finite numbers. *)
Definition guarded_ratio (a q : Q) : Q :=
  if Qlt_le_dec 0 q then a / q else 0.

(** ** States used as instances *)

(** The defaults with a quota of zero. *)
Definition st_zero_quota : State.t := State.setQuotaARR "0" State.initial.

(** The defaults with a negative clawbacks entry. *)
Definition st_negative_clawbacks : State.t :=
  State.setClawbacks "-50" State.initial.

(** The defaults with every deal a bundle and a negative top-tier bonus. *)
Definition st_negative_bonus : State.t :=
  State.setBundle35Bonus "-1000" (State.setBundleCount "22" State.initial).

(** No quota and no deals. *)
Definition st_no_quota_no_deals : State.t :=
  State.setTotalDeals "0" st_zero_quota.

(** More bundles than deals. *)
Definition st_excess_bundles : State.t :=
  State.setBundleCount "30" State.initial.

(** The optional accelerator switched on, with a share above 100%. *)
Definition st_share_on : State.t :=
  State.setUseOverQuotaBundleShare true
    (State.setOverQuotaBundleSharePct "250" State.initial).

(** ARR sold exactly at quota. *)
Definition st_at_quota : State.t := State.setArrSold "72000" State.initial.

(** ARR sold below quota, the optional accelerator on. *)
Definition st_below_quota_share_on : State.t :=
  State.setArrSold "36,000"
    (State.setUseOverQuotaBundleShare true
       (State.setOverQuotaBundleSharePct "40" State.initial)).

(** ** Notions used by the properties of [toNumber] *)

(** Text with at least one decimal digit. *)
Fixpoint has_digit (s : string) : bool :=
  match s with
  | EmptyString => false
  | String c s' => is_digit c || has_digit s'
  end.

Definition starts_with_minus (s : string) : bool :=
  match s with
  | String "-" _ => true
  | _ => false
  end.

Definition tail (s : string) : string :=
  match s with
  | String _ s' => s'
  | EmptyString => EmptyString
  end.

(** What [parseFloat] computes on text over [0-9.-] once the sign is read:
    no white space, no [Infinity] and no exponent can occur. *)
Definition parse_kept (neg : bool) (r : string) : number :=
  let '(ip, ni, r1) := digits r 0%Z 0%nat in
  let '(m, nf, r2) :=
    match r1 with
    | String "." r1' => digits r1' ip 0%nat
    | _ => (ip, 0%nat, r1)
    end in
  match (ni + nf)%nat with
  | O => NaN
  | S _ =>
      let v := inject_Z m * 10 ^ (0 - Z.of_nat nf) in
      Fin (if neg then - v else v)
  end.

(** The number a decimal numeral denotes, read from the left with the
    digits seen so far in [acc]. *)
Fixpoint uint_value (d : Decimal.uint) (acc : Z) : Z :=
  match d with
  | Decimal.Nil => acc
  | Decimal.D0 l => uint_value l (10 * acc)
  | Decimal.D1 l => uint_value l (10 * acc + 1)
  | Decimal.D2 l => uint_value l (10 * acc + 2)
  | Decimal.D3 l => uint_value l (10 * acc + 3)
  | Decimal.D4 l => uint_value l (10 * acc + 4)
  | Decimal.D5 l => uint_value l (10 * acc + 5)
  | Decimal.D6 l => uint_value l (10 * acc + 6)
  | Decimal.D7 l => uint_value l (10 * acc + 7)
  | Decimal.D8 l => uint_value l (10 * acc + 8)
  | Decimal.D9 l => uint_value l (10 * acc + 9)
  end%Z.

(** The decimal numeral of an integer, the text [String(n)] of an integer
    state value such as the defaults. *)
Definition decimal (z : Z) : string := NilZero.string_of_int (Z.to_int z).

(** * Properties *)

(** ** What [toNumber] returns *)

Lemma strip_all_kept (s : string) : all_kept (strip s) = true.
Proof.
  induction s as [|c s IH]; simpl; [reflexivity|].
  destruct (kept c) eqn:Hc; simpl; [rewrite Hc|]; exact IH.
Qed.

Lemma kept_not_space (c : ascii) : kept c = true -> is_space c = false.
Proof.
  destruct c as [b0 b1 b2 b3 b4 b5 b6 b7].
  destruct b0, b1, b2, b3, b4, b5, b6, b7;
    vm_compute; intros H; first [reflexivity | discriminate H].
Qed.

Lemma trim_start_kept (s : string) : all_kept s = true -> trim_start s = s.
Proof.
  destruct s as [|c s]; simpl; [reflexivity|].
  intros H. apply andb_prop in H. destruct H as [Hc _].
  now rewrite (kept_not_space c Hc).
Qed.

Lemma sign_kept (s : string) :
  all_kept s = true -> all_kept (snd (sign s)) = true.
Proof.
  destruct s as [|c s]; [reflexivity|].
  intros H. pose proof H as H'. simpl in H'.
  apply andb_prop in H'. destruct H' as [_ Hs].
  destruct c as [b0 b1 b2 b3 b4 b5 b6 b7].
  destruct b0, b1, b2, b3, b4, b5, b6, b7; first [exact H | exact Hs].
Qed.

Lemma prefix_Infinity_kept (s : string) :
  all_kept s = true -> String.prefix "Infinity" s = false.
Proof.
  destruct s as [|c s]; [reflexivity|]. intros H.
  change (String.prefix "Infinity" (String c s))
    with (if ascii_dec "I" c then String.prefix "nfinity" s else false).
  destruct (ascii_dec "I" c) as [<-|_]; [discriminate H|reflexivity].
Qed.

(** On text made of digits, dots and minus signs [parseFloat] finds a finite
    number or nothing. *)
Lemma parseFloat_kept (s : string) :
  all_kept s = true -> parseFloat s = NaN \/ exists q, parseFloat s = Fin q.
Proof.
  intros H. unfold parseFloat. rewrite (trim_start_kept s H).
  pose proof (sign_kept s H) as Hr.
  destruct (sign s) as [neg r]. simpl in Hr.
  rewrite (prefix_Infinity_kept r Hr).
  destruct (digits r 0%Z 0%nat) as [[ip ni] r1].
  destruct (match r1 with
            | String "." r1' => digits r1' ip 0%nat
            | _ => (ip, 0%nat, r1)
            end) as [[m nf] r2].
  destruct (ni + nf)%nat; [left; reflexivity|right; eexists; reflexivity].
Qed.

(** [toNumber] is total and its result is always a finite number. *)
Lemma toNumber_finite (v : string) : exists q, toNumber v = Fin q.
Proof.
  unfold toNumber.
  destruct (parseFloat_kept (strip v) (strip_all_kept v)) as [E|[q E]];
    rewrite E; simpl; eauto.
Qed.

Lemma toNumber_val (v : string) : toNumber v = Fin (toQ v).
Proof.
  unfold toQ. destruct (toNumber_finite v) as [q ->]. reflexivity.
Qed.

(** ** Numbers that are finite *)

Section NumberFacts.

Local Open Scope num_scope.

Lemma Math_max_Fin (a b : Q) : Math_max (Fin a) (Fin b) = Fin (Qmax a b).
Proof.
  unfold Math_max, Qmax, GenericMinMax.gmax. simpl.
  destruct (a ?= b)%Q; reflexivity.
Qed.

Lemma Math_min_Fin (a b : Q) : Math_min (Fin a) (Fin b) = Fin (Qmin a b).
Proof.
  unfold Math_min, Qmin, GenericMinMax.gmin. simpl.
  destruct (a ?= b)%Q; reflexivity.
Qed.

Lemma ltb_Fin (a b : Q) : Num.ltb (Fin a) (Fin b) = true <-> (a < b)%Q.
Proof.
  unfold Num.ltb. simpl. rewrite Qlt_alt.
  destruct (a ?= b)%Q; split; congruence.
Qed.

Lemma leb_Fin (a b : Q) : Num.leb (Fin a) (Fin b) = true <-> (a <= b)%Q.
Proof.
  unfold Num.leb. simpl. rewrite Qle_alt.
  destruct (a ?= b)%Q; split; congruence.
Qed.

Lemma gtb_Fin (a b : Q) : (Fin a >? Fin b) = true <-> (b < a)%Q.
Proof. apply ltb_Fin. Qed.

Lemma geb_Fin (a b : Q) : (Fin a >=? Fin b) = true <-> (b <= a)%Q.
Proof. apply leb_Fin. Qed.

Lemma eqb_Fin (a b : Q) : (Fin a === Fin b) = true <-> (a == b)%Q.
Proof.
  unfold Num.eqb. simpl. rewrite Qeq_alt.
  destruct (a ?= b)%Q; split; congruence.
Qed.

Lemma gtb_Fin_false (a b : Q) : (Fin a >? Fin b) = false <-> (a <= b)%Q.
Proof.
  rewrite <- not_true_iff_false, gtb_Fin. split.
  - apply Qnot_lt_le.
  - apply Qle_not_lt.
Qed.

Lemma geb_Fin_false (a b : Q) : (Fin a >=? Fin b) = false <-> (a < b)%Q.
Proof.
  rewrite <- not_true_iff_false, geb_Fin. split.
  - apply Qnot_le_lt.
  - apply Qlt_not_le.
Qed.

Lemma div_Fin (a b : Q) : ~ (b == 0)%Q -> Fin a / Fin b = Fin (a / b).
Proof.
  intros Hb. simpl. rewrite Qeq_alt in Hb.
  destruct (b ?= 0)%Q; [congruence|reflexivity|reflexivity].
Qed.

Lemma div_Fin_pos (a b : Q) : (0 < b)%Q -> Fin a / Fin b = Fin (a / b).
Proof.
  intros Hb. apply div_Fin. intros E. rewrite E in Hb.
  exact (Qlt_irrefl 0 Hb).
Qed.

End NumberFacts.

Lemma guarded_ratio_Fin (a q : Q) :
  (if (Fin q >? Fin 0)%num then (Fin a / Fin q)%num else Fin 0)
  = Fin (guarded_ratio a q).
Proof.
  unfold guarded_ratio. destruct (Qlt_le_dec 0 q) as [Hq|Hq].
  - rewrite (proj2 (gtb_Fin q 0) Hq). now apply div_Fin_pos.
  - now rewrite (proj2 (gtb_Fin_false q 0) Hq).
Qed.

(** ** The locals of [computed] as rationals *)

Section Values.

Variable st : State.t.

Lemma quotaArr_val :
  quotaArr st = Fin (Qmax 0 (toQ (State.quotaARR st))).
Proof. unfold quotaArr. now rewrite toNumber_val, Math_max_Fin. Qed.

Lemma baseAt100_val :
  baseAt100 st = Fin (Qmax 0 (toQ (State.basePayoutAt100 st))).
Proof. unfold baseAt100. now rewrite toNumber_val, Math_max_Fin. Qed.

Lemma arr_val : arr st = Fin (Qmax 0 (toQ (State.arrSold st))).
Proof. unfold arr. now rewrite toNumber_val, Math_max_Fin. Qed.

Lemma attainment_val :
  attainment st
  = Fin (guarded_ratio (Num.val (arr st)) (Num.val (quotaArr st))).
Proof.
  unfold attainment. rewrite arr_val, quotaArr_val.
  apply guarded_ratio_Fin.
Qed.

Lemma basePayout_val :
  basePayout st
  = Fin (Qmin 1 (Num.val (attainment st)) * Num.val (baseAt100 st)).
Proof.
  unfold basePayout. now rewrite attainment_val, baseAt100_val, Math_min_Fin.
Qed.

Lemma deals_val :
  deals st = Fin (Qmax 0 (inject_Z (Qfloor (toQ (State.totalDeals st))))).
Proof. unfold deals. now rewrite toNumber_val; simpl; rewrite Math_max_Fin. Qed.

Lemma bundles_val :
  bundles st = Fin (Qmax 0 (inject_Z (Qfloor (toQ (State.bundleCount st))))).
Proof. unfold bundles. now rewrite toNumber_val; simpl; rewrite Math_max_Fin. Qed.

Lemma bundlePct_val :
  bundlePct st
  = Fin (guarded_ratio (Num.val (bundles st)) (Num.val (deals st))).
Proof.
  unfold bundlePct. rewrite bundles_val, deals_val.
  apply guarded_ratio_Fin.
Qed.

Lemma bundleBonus_val :
  bundleBonus st = Fin (Num.val (bundleBonus st)).
Proof.
  unfold bundleBonus.
  destruct (_ >=? _)%num; [now rewrite toNumber_val|].
  destruct (_ >=? _)%num; [now rewrite toNumber_val|reflexivity].
Qed.

Lemma overARR_val :
  overARR st = Fin (Qmax 0 (Num.val (arr st) - Num.val (quotaArr st))).
Proof.
  unfold overARR. rewrite arr_val, quotaArr_val. simpl.
  now rewrite Math_max_Fin.
Qed.

Lemma share_val :
  share st
  = Fin (Qmin 100 (Qmax 0 (toQ (State.overQuotaBundleSharePct st))) / 100).
Proof.
  unfold share, clampPct.
  rewrite toNumber_val, Math_max_Fin, Math_min_Fin.
  now apply div_Fin_pos.
Qed.

Lemma accelerator_val :
  accelerator st
  = Fin (if State.useOverQuotaBundleShare st
         then Num.val (overARR st) / 12 * 1.25
              + Num.val (overARR st) / 12 * Num.val (share st) * 0.25
         else Num.val (overARR st) / 12 * 1.25).
Proof.
  unfold accelerator. rewrite overARR_val, share_val.
  rewrite div_Fin_pos by reflexivity.
  destruct (State.useOverQuotaBundleShare st); reflexivity.
Qed.

Lemma kicker_val : kicker st = Fin (toQ (State.prepaidKicker st)).
Proof. apply toNumber_val. Qed.

Lemma cb_val : cb st = Fin (toQ (State.clawbacks st)).
Proof. apply toNumber_val. Qed.

Lemma total_val :
  total st
  = Fin (Num.val (basePayout st) + Num.val (bundleBonus st)
         + Num.val (accelerator st) + Num.val (kicker st)
         - Num.val (cb st)).
Proof.
  unfold total.
  rewrite basePayout_val, bundleBonus_val, accelerator_val, kicker_val,
    cb_val.
  reflexivity.
Qed.

End Values.

(** ** Every field of the breakdown is a finite number *)

Lemma computed_finite (st : State.t) :
  let b := computed st in
  Num.isFinite (Breakdown.arr b) = true
  /\ Num.isFinite (Breakdown.quotaArr b) = true
  /\ Num.isFinite (Breakdown.attainment b) = true
  /\ Num.isFinite (Breakdown.basePayout b) = true
  /\ Num.isFinite (Breakdown.bundlePct b) = true
  /\ Num.isFinite (Breakdown.bundleBonus b) = true
  /\ Num.isFinite (Breakdown.overARR b) = true
  /\ Num.isFinite (Breakdown.accelerator b) = true
  /\ Num.isFinite (Breakdown.kicker b) = true
  /\ Num.isFinite (Breakdown.clawbacks b) = true
  /\ Num.isFinite (Breakdown.total b) = true.
Proof.
  cbn [computed Breakdown.arr Breakdown.quotaArr Breakdown.attainment
       Breakdown.basePayout Breakdown.bundlePct Breakdown.bundleBonus
       Breakdown.overARR Breakdown.accelerator Breakdown.kicker
       Breakdown.clawbacks Breakdown.total].
  rewrite arr_val, quotaArr_val, attainment_val, basePayout_val,
    bundlePct_val, bundleBonus_val, overARR_val, accelerator_val,
    kicker_val, cb_val, total_val.
  repeat split.
Qed.

Lemma eqb_refl_finite (x : number) :
  Num.isFinite x = true -> (x === x)%num = true.
Proof.
  destruct x as [q| | |]; try discriminate. intros _.
  apply eqb_Fin. reflexivity.
Qed.

(** ** The total *)


(** ** The reference scenario *)

(** C9: on the defaults (quota 72000, base payout 5833, bonuses 500 and 1000,
    ARR sold 93600, 22 deals of which 7 bundles, kicker 100, clawbacks 0,
    the optional accelerator off, whatever the share field holds) the
    breakdown is attainment 1.3, base payout 5833, bundle rate 7/22 and bonus
    500, over-quota ARR 21600, accelerator 2250 and total 8683. *)
Theorem reference_scenario (p : string) :
  let b := computed (State.setOverQuotaBundleSharePct p State.initial) in
  (Breakdown.attainment b === Fin 1.3)%num = true
  /\ (Breakdown.basePayout b === Fin 5833)%num = true
  /\ (Breakdown.bundlePct b === Fin 7 / Fin 22)%num = true
  /\ (Breakdown.bundleBonus b === Fin 500)%num = true
  /\ (Breakdown.overARR b === Fin 21600)%num = true
  /\ (Breakdown.accelerator b === Fin 2250)%num = true
  /\ (Breakdown.total b === Fin 8683)%num = true.
Proof.
  vm_compute. repeat split.
Qed.

(** ** Base payout *)

Lemma guarded_ratio_pos (a q : Q) : 0 < q -> guarded_ratio a q = a / q.
Proof.
  intros Hq. unfold guarded_ratio.
  destruct (Qlt_le_dec 0 q) as [_|H]; [reflexivity|].
  exfalso. exact (Qlt_not_le _ _ Hq H).
Qed.

Lemma guarded_ratio_nonpos (a q : Q) : q <= 0 -> guarded_ratio a q = 0.
Proof.
  intros Hq. unfold guarded_ratio.
  destruct (Qlt_le_dec 0 q) as [H|_]; [|reflexivity].
  exfalso. exact (Qlt_not_le _ _ H Hq).
Qed.

Lemma Qdiv_le_1 (a q : Q) : 0 < q -> a <= q -> a / q <= 1.
Proof.
  intros Hq Ha. apply Qle_shift_div_r; [exact Hq|]. now rewrite Qmult_1_l.
Qed.

Lemma Qdiv_ge_1 (a q : Q) : 0 < q -> q <= a -> 1 <= a / q.
Proof.
  intros Hq Ha. apply Qle_shift_div_l; [exact Hq|]. now rewrite Qmult_1_l.
Qed.




(** ** Kicker and clawbacks *)




(** ** Normalization of the amounts *)

(** A negative top-tier bonus is used as it is. *)
Lemma negative_bonus_not_clamped :
  (toNumber (State.bundle35Bonus st_negative_bonus) <? Fin 0)%num = true
  /\ (Breakdown.bundleBonus (computed st_negative_bonus) <? Fin 0)%num = true
  /\ Breakdown.bundleBonus (computed st_negative_bonus)
     = toNumber (State.bundle35Bonus st_negative_bonus).
Proof. vm_compute. repeat split. Qed.

(** C4, amended: the normalized quota, base payout at 100%, ARR sold, deal
    count and bundle count are non-negative for every raw input; the bundle
    bonus is one of the two parsed bonus amounts, as parsed, or zero. *)
Theorem clamped_amounts_nonnegative (st : State.t) :
  (quotaArr st >=? Fin 0)%num = true
  /\ (baseAt100 st >=? Fin 0)%num = true
  /\ (arr st >=? Fin 0)%num = true
  /\ (deals st >=? Fin 0)%num = true
  /\ (bundles st >=? Fin 0)%num = true
  /\ (bundleBonus st = toNumber (State.bundle35Bonus st)
      \/ bundleBonus st = toNumber (State.bundle20Bonus st)
      \/ bundleBonus st = Fin 0).
Proof.
  rewrite quotaArr_val, baseAt100_val, arr_val, deals_val, bundles_val.
  rewrite !geb_Fin.
  repeat (split; [apply Q.le_max_l|]).
  unfold bundleBonus.
  destruct (_ >=? _)%num; [now left|].
  destruct (_ >=? _)%num; [now right; left|now right; right].
Qed.

(** ** Guards against a zero divisor *)



(** ** Bundle bonus tiers *)

Lemma Qdiv_gt_1 (a q : Q) : 0 < q -> q < a -> 1 < a / q.
Proof.
  intros Hq Ha. apply Qlt_shift_div_l; [exact Hq|]. now rewrite Qmult_1_l.
Qed.

(** C6: the bundle bonus is the parsed 35% bonus when the bundle rate is at
    least 0.35, else the parsed 20% bonus when the rate is at least 0.20,
    else zero: one tier applies and the tiers are never added.  When there
    are deals and more bundles than deals, the rate exceeds 1 and the bonus
    is the 35% bonus. *)
Theorem bundle_bonus_tiers (st : State.t) :
  Breakdown.bundleBonus (computed st)
  = (if (Breakdown.bundlePct (computed st) >=? Fin 0.35)%num
     then toNumber (State.bundle35Bonus st)
     else if (Breakdown.bundlePct (computed st) >=? Fin 0.20)%num
          then toNumber (State.bundle20Bonus st)
          else Fin 0)
  /\ ((deals st >? Fin 0)%num = true ->
      (bundles st >? deals st)%num = true ->
      (Breakdown.bundlePct (computed st) >? Fin 1)%num = true
      /\ Breakdown.bundleBonus (computed st)
         = toNumber (State.bundle35Bonus st)).
Proof.
  split; [reflexivity|].
  cbn [computed Breakdown.bundlePct Breakdown.bundleBonus].
  unfold bundleBonus.
  rewrite bundlePct_val, (deals_val st), (bundles_val st).
  cbn [Num.val]. rewrite !gtb_Fin. intros Hd Hb.
  rewrite guarded_ratio_pos by exact Hd.
  pose proof (Qdiv_gt_1 _ _ Hd Hb) as H1.
  split; [exact H1|].
  rewrite (proj2 (geb_Fin _ 0.35)); [reflexivity|].
  apply Qlt_le_weak. apply (Qlt_trans _ 1); [reflexivity|exact H1].
Qed.

Lemma bundle_bonus_tiers_excess_bundles :
  (deals st_excess_bundles >? Fin 0)%num = true
  /\ (bundles st_excess_bundles >? deals st_excess_bundles)%num = true
  /\ (Breakdown.bundlePct (computed st_excess_bundles) >? Fin 1)%num = true
  /\ Breakdown.bundleBonus (computed st_excess_bundles)
     = toNumber (State.bundle35Bonus st_excess_bundles).
Proof.
  assert (Hd : (deals st_excess_bundles >? Fin 0)%num = true) by reflexivity.
  assert (Hb : (bundles st_excess_bundles >? deals st_excess_bundles)%num
               = true) by reflexivity.
  destruct (bundle_bonus_tiers st_excess_bundles) as [_ H].
  exact (conj Hd (conj Hb (H Hd Hb))).
Defined.

(** ** Accelerator *)

Lemma clampPct_val (p : string) :
  clampPct (toNumber p) = Fin (Qmin 100 (Qmax 0 (toQ p))).
Proof. unfold clampPct. now rewrite toNumber_val, Math_max_Fin, Math_min_Fin. Qed.





(** ** Monotonicity in the ARR sold *)

Lemma guarded_ratio_mono (a1 a2 q : Q) :
  a1 <= a2 -> guarded_ratio a1 q <= guarded_ratio a2 q.
Proof.
  intros Ha. unfold guarded_ratio.
  destruct (Qlt_le_dec 0 q) as [Hq|_]; [|apply Qle_refl].
  apply Qmult_le_compat_r; [exact Ha|].
  apply Qlt_le_weak, Qinv_lt_0_compat, Hq.
Qed.

Lemma basePayout_mono (st : State.t) (a1 a2 : string) :
  toQ a1 <= toQ a2 ->
  Num.val (basePayout (State.setArrSold a1 st))
  <= Num.val (basePayout (State.setArrSold a2 st)).
Proof.
  intros Ha. rewrite !basePayout_val, !attainment_val, !arr_val.
  change (quotaArr (State.setArrSold a1 st)) with (quotaArr st).
  change (quotaArr (State.setArrSold a2 st)) with (quotaArr st).
  change (baseAt100 (State.setArrSold a1 st)) with (baseAt100 st).
  change (baseAt100 (State.setArrSold a2 st)) with (baseAt100 st).
  rewrite baseAt100_val.
  cbn [Num.val State.arrSold State.setArrSold].
  apply Qmult_le_compat_r; [|apply Q.le_max_l].
  apply Q.min_le_compat_l, guarded_ratio_mono, Q.max_le_compat_l, Ha.
Qed.

Lemma overARR_mono (st : State.t) (a1 a2 : string) :
  toQ a1 <= toQ a2 ->
  Num.val (overARR (State.setArrSold a1 st))
  <= Num.val (overARR (State.setArrSold a2 st)).
Proof.
  intros Ha. rewrite !overARR_val, !arr_val.
  change (quotaArr (State.setArrSold a1 st)) with (quotaArr st).
  change (quotaArr (State.setArrSold a2 st)) with (quotaArr st).
  cbn [Num.val State.arrSold State.setArrSold].
  apply Q.max_le_compat_l.
  apply Qplus_le_compat; [|apply Qle_refl].
  apply Q.max_le_compat_l, Ha.
Qed.

Lemma share_nonneg (st : State.t) : 0 <= Num.val (share st).
Proof.
  rewrite share_val. cbn [Num.val].
  apply Qle_shift_div_l; [reflexivity|]. rewrite Qmult_0_l.
  apply Q.min_glb; [discriminate|apply Q.le_max_l].
Qed.

Lemma accelerator_mono (st : State.t) (a1 a2 : string) :
  toQ a1 <= toQ a2 ->
  Num.val (accelerator (State.setArrSold a1 st))
  <= Num.val (accelerator (State.setArrSold a2 st)).
Proof.
  intros Ha. rewrite !accelerator_val.
  change (share (State.setArrSold a1 st)) with (share st).
  change (share (State.setArrSold a2 st)) with (share st).
  cbn [Num.val State.useOverQuotaBundleShare State.setArrSold].
  pose proof (overARR_mono st a1 a2 Ha) as Ho.
  pose proof (share_nonneg st) as Hs.
  set (o1 := Num.val (overARR (State.setArrSold a1 st))) in *.
  set (o2 := Num.val (overARR (State.setArrSold a2 st))) in *.
  set (s := Num.val (share st)) in *.
  assert (Hos : o1 * s <= o2 * s) by (apply Qmult_le_compat_r; assumption).
  destruct (State.useOverQuotaBundleShare st);
    setoid_replace (o1 / 12 * 1.25) with (o1 * (5 # 48)) by field;
    setoid_replace (o2 / 12 * 1.25) with (o2 * (5 # 48)) by field.
  - setoid_replace (o1 / 12 * s * 0.25) with (o1 * s * (1 # 48)) by field.
    setoid_replace (o2 / 12 * s * 0.25) with (o2 * s * (1 # 48)) by field.
    clearbody o1 o2 s.
    generalize dependent (o1 * s). generalize dependent (o2 * s).
    intros u2 u1 Hu. lra.
  - lra.
Qed.




(** * Further properties *)

(** ** [toNumber] on arbitrary text *)

Lemma strip_app (a b : string) : strip (a ++ b) = (strip a ++ strip b)%string.
Proof.
  induction a as [|c a IH]; simpl; [reflexivity|].
  destruct (kept c); simpl; now rewrite IH.
Qed.

Lemma strip_id (s : string) : all_kept s = true -> strip s = s.
Proof.
  induction s as [|c s IH]; simpl; [reflexivity|].
  intros H. apply andb_prop in H. destruct H as [Hc Hs].
  now rewrite Hc, IH.
Qed.

Lemma all_kept_app (a b : string) :
  all_kept (a ++ b) = all_kept a && all_kept b.
Proof.
  induction a as [|c a IH]; simpl; [reflexivity|].
  now rewrite IH, andb_assoc.
Qed.

Lemma has_digit_strip (s : string) : has_digit (strip s) = has_digit s.
Proof.
  induction s as [|c s IH]; simpl; [reflexivity|].
  unfold kept. destruct (is_digit c) eqn:Hd; simpl.
  - now rewrite Hd.
  - destruct (Ascii.eqb c "." || Ascii.eqb c "-"); simpl;
      [rewrite Hd; simpl|]; exact IH.
Qed.

Lemma kept_not_exponent (c : ascii) :
  kept c = true -> Ascii.eqb c "e" || Ascii.eqb c "E" = false.
Proof.
  destruct c as [b0 b1 b2 b3 b4 b5 b6 b7].
  destruct b0, b1, b2, b3, b4, b5, b6, b7;
    vm_compute; intros H; first [reflexivity | discriminate H].
Qed.

Lemma exponent_kept (s : string) : all_kept s = true -> exponent s = 0%Z.
Proof.
  destruct s as [|c s]; [reflexivity|].
  intros H. simpl in H. apply andb_prop in H. destruct H as [Hc _].
  unfold exponent. now rewrite (kept_not_exponent c Hc).
Qed.

Lemma digits_kept (s : string) (acc : Z) (n : nat) :
  all_kept s = true -> all_kept (snd (digits s acc n)) = true.
Proof.
  revert acc n. induction s as [|c s IH]; intros acc n H; [reflexivity|].
  simpl. destruct (is_digit c); [|exact H].
  apply IH. simpl in H. apply andb_prop in H. tauto.
Qed.

Lemma sign_kept_eq (s : string) :
  all_kept s = true ->
  sign s = (starts_with_minus s, if starts_with_minus s then tail s else s).
Proof.
  destruct s as [|c s]; [reflexivity|].
  intros H. simpl in H. apply andb_prop in H. destruct H as [Hc _].
  destruct c as [b0 b1 b2 b3 b4 b5 b6 b7].
  destruct b0, b1, b2, b3, b4, b5, b6, b7;
    first [reflexivity | discriminate Hc].
Qed.

Lemma tail_kept (s : string) : all_kept s = true -> all_kept (tail s) = true.
Proof.
  destruct s as [|c s]; [reflexivity|].
  simpl. intros H. apply andb_prop in H. tauto.
Qed.

(** On text over [0-9.-], [parseFloat] is [parse_kept] after the sign. *)
Lemma parseFloat_kept_eq (s : string) :
  all_kept s = true ->
  parseFloat s
  = parse_kept (starts_with_minus s)
      (if starts_with_minus s then tail s else s).
Proof.
  intros H. unfold parseFloat, parse_kept.
  rewrite (trim_start_kept s H), (sign_kept_eq s H).
  set (r := if starts_with_minus s then tail s else s).
  assert (Hr : all_kept r = true).
  { unfold r. destruct (starts_with_minus s); [now apply tail_kept|exact H]. }
  rewrite (prefix_Infinity_kept r Hr).
  pose proof (digits_kept r 0%Z 0%nat Hr) as H1.
  destruct (digits r 0%Z 0%nat) as [[ip ni] r1]. simpl in H1.
  assert (H2 : all_kept
                 (snd (match r1 with
                       | String "." r1' => digits r1' ip 0%nat
                       | _ => (ip, 0%nat, r1)
                       end)) = true).
  { destruct r1 as [|c r1']; [reflexivity|].
    destruct c as [b0 b1 b2 b3 b4 b5 b6 b7].
    destruct b0, b1, b2, b3, b4, b5, b6, b7; try exact H1.
    apply digits_kept. simpl in H1. exact H1. }
  destruct (match r1 with
            | String "." r1' => digits r1' ip 0%nat
            | _ => (ip, 0%nat, r1)
            end) as [[m nf] r2].
  simpl in H2. now rewrite (exponent_kept r2 H2).
Qed.

Lemma toNumber_parse_kept (v : string) :
  toNumber v
  = (let n := parse_kept (starts_with_minus (strip v))
                (if starts_with_minus (strip v) then tail (strip v)
                 else strip v) in
     if Num.isNaN n then Fin 0 else n).
Proof.
  unfold toNumber. now rewrite (parseFloat_kept_eq _ (strip_all_kept v)).
Qed.


(** X2: a character outside [0-9.-] (a currency sign, a thousands separator,
    a space, a letter) has no effect wherever it stands in the text. *)
Theorem toNumber_ignores_other_characters (a b : string) (c : ascii) :
  kept c = false -> toNumber (a ++ String c b) = toNumber (a ++ b).
Proof.
  intros Hc. unfold toNumber. rewrite !strip_app. simpl. now rewrite Hc.
Qed.

Lemma toNumber_ignores_other_characters_comma :
  kept "," = false
  /\ toNumber ("$1" ++ String "," "234.50") = toNumber ("$1" ++ "234.50").
Proof.
  assert (Hc : kept "," = false) by reflexivity.
  exact (conj Hc (toNumber_ignores_other_characters "$1" "234.50" "," Hc)).
Defined.

Lemma digits_no_digit (s : string) (acc : Z) (n : nat) :
  has_digit s = false -> digits s acc n = (acc, n, s).
Proof.
  destruct s as [|c s]; [reflexivity|].
  simpl. intros H. apply orb_false_elim in H. destruct H as [-> _].
  reflexivity.
Qed.

Lemma has_digit_tail (s : string) :
  has_digit s = false -> has_digit (tail s) = false.
Proof.
  destruct s as [|c s]; [reflexivity|].
  simpl. intros H. apply orb_false_elim in H. tauto.
Qed.

Lemma parse_kept_no_digit (neg : bool) (r : string) :
  has_digit r = false -> parse_kept neg r = NaN.
Proof.
  intros H. unfold parse_kept. rewrite (digits_no_digit r _ _ H).
  destruct r as [|c r']; [reflexivity|].
  pose proof (has_digit_tail _ H) as Ht. simpl in Ht.
  destruct c as [b0 b1 b2 b3 b4 b5 b6 b7].
  destruct b0, b1, b2, b3, b4, b5, b6, b7; try reflexivity.
  now rewrite (digits_no_digit r' _ _ Ht).
Qed.

(** X3: text without any decimal digit (the empty text, a lone sign or dot,
    words) is read as 0. *)
Theorem toNumber_without_digit_is_zero (v : string) :
  has_digit v = false -> toNumber v = Fin 0.
Proof.
  intros H. rewrite toNumber_parse_kept.
  rewrite <- has_digit_strip in H.
  rewrite parse_kept_no_digit; [reflexivity|].
  destruct (starts_with_minus (strip v)); [now apply has_digit_tail|exact H].
Qed.

Lemma toNumber_without_digit_is_zero_instances :
  (has_digit "" = false /\ toNumber "" = Fin 0)
  /\ (has_digit "n/a -." = false /\ toNumber "n/a -." = Fin 0).
Proof.
  assert (H1 : has_digit "" = false) by reflexivity.
  assert (H2 : has_digit "n/a -." = false) by reflexivity.
  exact (conj (conj H1 (toNumber_without_digit_is_zero "" H1))
              (conj H2 (toNumber_without_digit_is_zero "n/a -." H2))).
Defined.

Lemma digits_nonneg (s : string) (acc : Z) (n : nat) :
  (0 <= acc)%Z -> (0 <= fst (fst (digits s acc n)))%Z.
Proof.
  revert acc n. induction s as [|c s IH]; intros acc n Hacc; [exact Hacc|].
  cbn [digits]. destruct (is_digit c) eqn:Hd; [|exact Hacc].
  apply IH. unfold digit_val. unfold is_digit in Hd.
  apply andb_prop in Hd. destruct Hd as [Hd _].
  apply Nat.leb_le in Hd. lia.
Qed.

Lemma parse_kept_unsigned_nonneg (r : string) :
  parse_kept false r = NaN \/ exists q, parse_kept false r = Fin q /\ 0 <= q.
Proof.
  unfold parse_kept.
  pose proof (digits_nonneg r 0%Z 0%nat (Z.le_refl 0)) as H1.
  destruct (digits r 0%Z 0%nat) as [[ip ni] r1]. simpl in H1.
  assert (H2 : (0 <= fst (fst (match r1 with
                                | String "." r1' => digits r1' ip 0%nat
                                | _ => (ip, 0%nat, r1)
                                end)))%Z).
  { destruct r1 as [|c r1']; [exact H1|].
    destruct c as [b0 b1 b2 b3 b4 b5 b6 b7].
    destruct b0, b1, b2, b3, b4, b5, b6, b7; try exact H1.
    now apply digits_nonneg. }
  destruct (match r1 with
            | String "." r1' => digits r1' ip 0%nat
            | _ => (ip, 0%nat, r1)
            end) as [[m nf] r2].
  simpl in H2.
  destruct (ni + nf)%nat; [now left|right].
  eexists. split; [reflexivity|].
  apply Qmult_le_0_compat.
  - change 0 with (inject_Z 0). now rewrite <- Zle_Qle.
  - apply Qpower_0_le. discriminate.
Qed.

(** X4: the result is negative only when the first character that is kept
    is a minus sign. *)
Theorem toNumber_negative_only_after_minus (v : string) :
  (toNumber v <? Fin 0)%num = true -> starts_with_minus (strip v) = true.
Proof.
  rewrite toNumber_parse_kept.
  destruct (starts_with_minus (strip v)); [reflexivity|].
  cbv zeta.
  destruct (parse_kept_unsigned_nonneg (strip v)) as [E|[q [E Hq]]];
    rewrite E; cbn [Num.isNaN].
  - discriminate.
  - rewrite ltb_Fin. intros H. exfalso. exact (Qlt_not_le _ _ H Hq).
Qed.

Lemma toNumber_negative_only_after_minus_instance :
  (toNumber "$ -12.5" <? Fin 0)%num = true
  /\ starts_with_minus (strip "$ -12.5") = true.
Proof.
  assert (H : (toNumber "$ -12.5" <? Fin 0)%num = true) by reflexivity.
  exact (conj H (toNumber_negative_only_after_minus "$ -12.5" H)).
Defined.

Lemma parse_kept_neg (r : string) :
  parse_kept true r = Num.opp (parse_kept false r).
Proof.
  unfold parse_kept.
  destruct (digits r 0%Z 0%nat) as [[ip ni] r1].
  destruct (match r1 with
            | String "." r1' => digits r1' ip 0%nat
            | _ => (ip, 0%nat, r1)
            end) as [[m nf] r2].
  destruct (ni + nf)%nat; reflexivity.
Qed.

(** X5: a minus sign put in front of text whose first kept character is not
    itself a minus negates the number read. *)
Theorem toNumber_leading_minus_negates (s : string) :
  starts_with_minus (strip s) = false ->
  toNumber (String "-" s) = Num.opp (toNumber s).
Proof.
  intros H. rewrite !toNumber_parse_kept.
  change (strip (String "-" s)) with (String "-" (strip s)).
  change (starts_with_minus (String "-" (strip s))) with true.
  cbv iota. change (tail (String "-" (strip s))) with (strip s).
  rewrite H, parse_kept_neg. cbv zeta.
  destruct (parse_kept false (strip s)); reflexivity.
Qed.

Lemma toNumber_leading_minus_negates_instance :
  starts_with_minus (strip "$1,250.75") = false
  /\ toNumber (String "-" "$1,250.75") = Num.opp (toNumber "$1,250.75").
Proof.
  assert (H : starts_with_minus (strip "$1,250.75") = false) by reflexivity.
  exact (conj H (toNumber_leading_minus_negates "$1,250.75" H)).
Defined.

Lemma digits_app_minus (s t : string) (acc : Z) (n : nat) :
  digits (s ++ String "-" t) acc n
  = (fst (fst (digits s acc n)), snd (fst (digits s acc n)),
     (snd (digits s acc n) ++ String "-" t)%string).
Proof.
  revert acc n. induction s as [|c s IH]; intros acc n; [reflexivity|].
  cbn [append digits]. destruct (is_digit c); [apply IH|reflexivity].
Qed.

Lemma parse_kept_app_minus (neg : bool) (r t : string) :
  parse_kept neg (r ++ String "-" t) = parse_kept neg r.
Proof.
  unfold parse_kept. rewrite digits_app_minus.
  destruct (digits r 0%Z 0%nat) as [[ip ni] r1]. cbn [fst snd].
  destruct r1 as [|c r1']; [reflexivity|].
  cbn [append].
  destruct c as [b0 b1 b2 b3 b4 b5 b6 b7].
  destruct b0, b1, b2, b3, b4, b5, b6, b7; try reflexivity.
  rewrite digits_app_minus.
  destruct (digits r1' ip 0%nat) as [[m nf] r2]. reflexivity.
Qed.

(** X6: a minus sign that is not the first kept character ends the number:
    it and everything after it are ignored. *)
Theorem toNumber_stops_at_inner_minus (p rest : string) :
  strip p <> EmptyString ->
  toNumber (p ++ String "-" rest) = toNumber p.
Proof.
  intros Hp. rewrite !toNumber_parse_kept. rewrite strip_app.
  change (strip (String "-" rest)) with (String "-" (strip rest)).
  destruct (strip p) as [|c k]; [now elim Hp|].
  cbn [append].
  change (starts_with_minus (String c (k ++ String "-" (strip rest))))
    with (starts_with_minus (String c k)).
  destruct (starts_with_minus (String c k)).
  - cbn [tail]. now rewrite parse_kept_app_minus.
  - change (String c (k ++ String "-" (strip rest)))
      with (String c k ++ String "-" (strip rest))%string.
    now rewrite parse_kept_app_minus.
Qed.

Lemma toNumber_stops_at_inner_minus_instance :
  strip "555" <> EmptyString
  /\ toNumber ("555" ++ String "-" "1234") = toNumber "555".
Proof.
  assert (H : strip "555" <> EmptyString) by discriminate.
  exact (conj H (toNumber_stops_at_inner_minus "555" "1234" H)).
Defined.

(** ** Decimal numerals are read back *)

Lemma all_kept_uint (d : Decimal.uint) :
  all_kept (NilEmpty.string_of_uint d) = true.
Proof. induction d; simpl; auto. Qed.

Lemma digits_uint (d : Decimal.uint) (acc : Z) (n : nat) :
  digits (NilEmpty.string_of_uint d) acc n
  = (uint_value d acc, (n + Decimal.nb_digits d)%nat, EmptyString).
Proof.
  revert acc n.
  induction d as [|d IH|d IH|d IH|d IH|d IH|d IH|d IH|d IH|d IH|d IH];
    intros acc n;
    [cbn; now rewrite Nat.add_0_r|..];
    cbn [NilEmpty.string_of_uint digits Decimal.nb_digits uint_value];
    match goal with
    | |- context [is_digit ?c] => change (is_digit c) with true
    end;
    cbv iota;
    match goal with
    | |- context [digit_val ?c] =>
        let v := eval vm_compute in (digit_val c) in
        change (digit_val c) with v
    end;
    rewrite IH, Nat.add_succ_r, ?Z.add_0_r; reflexivity.
Qed.

Lemma uint_value_pos (d : Decimal.uint) (p : positive) :
  uint_value d (Z.pos p) = Z.pos (Pos.of_uint_acc d p).
Proof.
  revert p. induction d; intros p; cbn [uint_value Pos.of_uint_acc];
    [reflexivity|..];
    match goal with
    | |- uint_value _ ?a = Z.pos (Pos.of_uint_acc _ ?b) =>
        replace a with (Z.pos b) by lia
    end; apply IHd.
Qed.

Lemma uint_value_0 (d : Decimal.uint) : uint_value d 0 = Z.of_uint d.
Proof.
  unfold Z.of_uint.
  induction d; cbn [uint_value Pos.of_uint]; [reflexivity|exact IHd|..];
    cbn [Z.mul Z.add Z.of_N]; apply uint_value_pos.
Qed.

Lemma parse_kept_uint (neg : bool) (d : Decimal.uint) :
  parse_kept neg (NilZero.string_of_uint d)
  = Fin (if neg then - (inject_Z (Z.of_uint d) * 10 ^ (0 - 0))
         else inject_Z (Z.of_uint d) * 10 ^ (0 - 0)).
Proof.
  destruct d; [reflexivity|..];
    unfold parse_kept, NilZero.string_of_uint;
    rewrite digits_uint, uint_value_0; reflexivity.
Qed.

Lemma starts_with_minus_uint (d : Decimal.uint) :
  starts_with_minus (NilZero.string_of_uint d) = false.
Proof. destruct d; reflexivity. Qed.

Lemma all_kept_uint_zero (d : Decimal.uint) :
  all_kept (NilZero.string_of_uint d) = true.
Proof. destruct d; [reflexivity|..]; apply all_kept_uint. Qed.


Lemma decimal_prints_defaults :
  decimal 72000 = State.quotaARR State.initial
  /\ decimal 5833 = State.basePayoutAt100 State.initial
  /\ decimal 93600 = State.arrSold State.initial.
Proof. repeat split. Qed.

(** ** [clampPct] on every number *)

(** X8: [clampPct] lets [NaN] through and brings every other number,
    the two infinities included, into the interval from 0 to 100. *)
Theorem clampPct_range (x : number) :
  clampPct NaN = NaN
  /\ (Num.isNaN x = false ->
      (clampPct x >=? Fin 0)%num = true
      /\ (clampPct x <=? Fin 100)%num = true).
Proof.
  split; [reflexivity|].
  destruct x as [q| | |]; intros Hx; try discriminate Hx;
    [|split; reflexivity|split; reflexivity].
  unfold clampPct. rewrite Math_max_Fin, Math_min_Fin, geb_Fin, leb_Fin.
  split.
  - apply Q.min_glb; [discriminate|apply Q.le_max_l].
  - apply Q.le_min_l.
Qed.

Lemma clampPct_range_infinity :
  Num.isNaN PosInf = false
  /\ (clampPct PosInf >=? Fin 0)%num = true
  /\ (clampPct PosInf <=? Fin 100)%num = true.
Proof.
  assert (H : Num.isNaN PosInf = false) by reflexivity.
  destruct (clampPct_range PosInf) as [_ Hr].
  exact (conj H (Hr H)).
Defined.

(** X9: clamping twice is clamping once, and a number already between 0
    and 100 is returned unchanged. *)
Theorem clampPct_idempotent_and_identity_inside (x : number) :
  clampPct (clampPct x) = clampPct x
  /\ ((x >=? Fin 0)%num = true -> (x <=? Fin 100)%num = true ->
      (clampPct x === x)%num = true).
Proof.
  split.
  - destruct x as [q| | |]; try reflexivity.
    unfold clampPct, Math_max, Math_min. cbn [Num.compare].
    destruct (0 ?= q) eqn:E0; cbn [Num.compare].
    + reflexivity.
    + destruct (100 ?= q) eqn:E1; cbn [Num.compare].
      * reflexivity.
      * reflexivity.
      * rewrite E0. cbn [Num.compare]. rewrite E1. reflexivity.
    + reflexivity.
  - destruct x as [q| | |]; try discriminate.
    rewrite geb_Fin, leb_Fin. intros H0 H1.
    unfold clampPct. rewrite Math_max_Fin, Math_min_Fin. apply eqb_Fin.
    rewrite (Q.max_r 0 q H0). now apply Q.min_r.
Qed.

Lemma clampPct_idempotent_and_identity_inside_instance :
  (Fin 40 >=? Fin 0)%num = true
  /\ (Fin 40 <=? Fin 100)%num = true
  /\ (clampPct (Fin 40) === Fin 40)%num = true.
Proof.
  assert (H0 : (Fin 40 >=? Fin 0)%num = true) by reflexivity.
  assert (H1 : (Fin 40 <=? Fin 100)%num = true) by reflexivity.
  destruct (clampPct_idempotent_and_identity_inside (Fin 40)) as [_ H].
  exact (conj H0 (conj H1 (H H0 H1))).
Defined.

(** ** Bounds on the fields of the breakdown *)

Lemma guarded_ratio_nonneg (a q : Q) : 0 <= a -> 0 <= guarded_ratio a q.
Proof.
  intros Ha. unfold guarded_ratio.
  destruct (Qlt_le_dec 0 q) as [Hq|_]; [|apply Qle_refl].
  apply Qle_shift_div_l; [exact Hq|]. now rewrite Qmult_0_l.
Qed.

Lemma arr_nonneg (st : State.t) : 0 <= Num.val (arr st).
Proof. rewrite arr_val. apply Q.le_max_l. Qed.

Lemma quotaArr_nonneg (st : State.t) : 0 <= Num.val (quotaArr st).
Proof. rewrite quotaArr_val. apply Q.le_max_l. Qed.

Lemma baseAt100_nonneg (st : State.t) : 0 <= Num.val (baseAt100 st).
Proof. rewrite baseAt100_val. apply Q.le_max_l. Qed.

Lemma attainment_nonneg (st : State.t) : 0 <= Num.val (attainment st).
Proof.
  rewrite attainment_val. apply guarded_ratio_nonneg, arr_nonneg.
Qed.


Lemma deals_nonneg (st : State.t) : 0 <= Num.val (deals st).
Proof. rewrite deals_val. apply Q.le_max_l. Qed.

Lemma bundles_nonneg (st : State.t) : 0 <= Num.val (bundles st).
Proof. rewrite bundles_val. apply Q.le_max_l. Qed.



Lemma Qmax_0_inject_Z (k : Z) :
  Qmax 0 (inject_Z k) = inject_Z (Z.of_nat (Z.to_nat k)).
Proof.
  unfold Qmax, GenericMinMax.gmax, Qcompare. cbn [Qnum Qden inject_Z].
  rewrite Z.mul_1_r. change (0 * 1)%Z with 0%Z.
  destruct k as [|p|p]; cbn [Z.compare]; try reflexivity.
  now rewrite Z2Nat.id by lia.
Qed.


(** ** The optional accelerator and the share *)

Lemma accel_formula_mono (u : bool) (o1 o2 s : Q) :
  o1 <= o2 -> 0 <= s ->
  (if u then o1 / 12 * 1.25 + o1 / 12 * s * 0.25 else o1 / 12 * 1.25)
  <= (if u then o2 / 12 * 1.25 + o2 / 12 * s * 0.25 else o2 / 12 * 1.25).
Proof.
  intros Ho Hs.
  assert (Hos : o1 * s <= o2 * s) by (apply Qmult_le_compat_r; assumption).
  destruct u;
    setoid_replace (o1 / 12 * 1.25) with (o1 * (5 # 48)) by field;
    setoid_replace (o2 / 12 * 1.25) with (o2 * (5 # 48)) by field.
  - setoid_replace (o1 / 12 * s * 0.25) with (o1 * s * (1 # 48)) by field.
    setoid_replace (o2 / 12 * s * 0.25) with (o2 * s * (1 # 48)) by field.
    generalize dependent (o1 * s). generalize dependent (o2 * s).
    intros u2 u1 Hu. lra.
  - lra.
Qed.

Lemma accel_formula_share_mono (u : bool) (o s1 s2 : Q) :
  0 <= o -> s1 <= s2 ->
  (if u then o / 12 * 1.25 + o / 12 * s1 * 0.25 else o / 12 * 1.25)
  <= (if u then o / 12 * 1.25 + o / 12 * s2 * 0.25 else o / 12 * 1.25).
Proof.
  intros Ho Hs.
  assert (Hos : s1 * o <= s2 * o) by (apply Qmult_le_compat_r; assumption).
  destruct u; [|apply Qle_refl].
  setoid_replace (o / 12 * s1 * 0.25) with (s1 * o * (1 # 48)) by field.
  setoid_replace (o / 12 * s2 * 0.25) with (s2 * o * (1 # 48)) by field.
  generalize dependent (s1 * o). generalize dependent (s2 * o).
  intros u2 u1 Hu. lra.
Qed.

Lemma overARR_nonneg (st : State.t) : 0 <= Num.val (overARR st).
Proof. rewrite overARR_val. apply Q.le_max_l. Qed.

Lemma share_mono (st : State.t) (p1 p2 : string) :
  toQ p1 <= toQ p2 ->
  Num.val (share (State.setOverQuotaBundleSharePct p1 st))
  <= Num.val (share (State.setOverQuotaBundleSharePct p2 st)).
Proof.
  intros Hp. rewrite !share_val.
  cbn [Num.val State.overQuotaBundleSharePct State.setOverQuotaBundleSharePct].
  apply Qmult_le_compat_r; [|discriminate].
  apply Q.min_le_compat_l, Q.max_le_compat_l, Hp.
Qed.



Lemma share_zero (st : State.t) :
  toQ (State.overQuotaBundleSharePct st) <= 0 -> Num.val (share st) == 0.
Proof.
  intros Hp. rewrite share_val. cbn [Num.val].
  rewrite (Q.max_l 0 _ Hp), (Q.min_r 100 0) by discriminate. reflexivity.
Qed.

Lemma share_one (st : State.t) :
  100 <= toQ (State.overQuotaBundleSharePct st) -> Num.val (share st) == 1.
Proof.
  intros Hp. rewrite share_val. cbn [Num.val].
  rewrite (Q.max_r 0 _) by (apply (Qle_trans _ 100); [discriminate|exact Hp]).
  rewrite (Q.min_l 100 _ Hp). reflexivity.
Qed.



(** ** When the accelerator pays *)

Lemma overARR_pos_iff (st : State.t) :
  0 < Num.val (overARR st) <-> Num.val (quotaArr st) < Num.val (arr st).
Proof.
  rewrite overARR_val. cbn [Num.val].
  set (a := Num.val (arr st)). set (q := Num.val (quotaArr st)).
  destruct (Q.max_spec 0 (a - q)) as [[H ->]|[H ->]]; split; intros H'; lra.
Qed.

Lemma accelerator_pos_iff (st : State.t) :
  0 < Num.val (accelerator st) <-> 0 < Num.val (overARR st).
Proof.
  rewrite accelerator_val. cbn [Num.val].
  pose proof (overARR_nonneg st) as Ho.
  pose proof (share_nonneg st) as Hs.
  set (o := Num.val (overARR st)) in *.
  set (s := Num.val (share st)) in *.
  assert (Hos : 0 <= o * s) by (now apply Qmult_le_0_compat).
  destruct (State.useOverQuotaBundleShare st);
    setoid_replace (o / 12 * 1.25) with (o * (5 # 48)) by field.
  - setoid_replace (o / 12 * s * 0.25) with (o * s * (1 # 48)) by field.
    split; intros H.
    + destruct (Qlt_le_dec 0 o) as [Hp|Hn]; [exact Hp|exfalso].
      assert (E : o == 0) by lra.
      rewrite E in H. revert H.
      setoid_replace (0 * (5 # 48) + 0 * s * (1 # 48)) with 0 by ring.
      apply Qlt_irrefl.
    + generalize dependent (o * s). intros; lra.
  - split; intros H; lra.
Qed.

Lemma base_payout_cap_above_quota (st : State.t) :
  (quotaArr st >? Fin 0)%num = true ->
  (arr st >=? quotaArr st)%num = true ->
  (basePayout st === baseAt100 st)%num = true.
Proof.
  rewrite basePayout_val, attainment_val.
  rewrite (arr_val st), (quotaArr_val st), (baseAt100_val st).
  cbn [Num.val]. rewrite gtb_Fin, geb_Fin, eqb_Fin. intros Hq Ha.
  rewrite (guarded_ratio_pos _ _ Hq).
  rewrite (Q.min_l 1 _); [apply Qmult_1_l|].
  now apply Qdiv_ge_1.
Qed.



(** ** Nothing sold, no quota *)

Lemma eqb_Fin_val (x : number) (e q : Q) :
  x = Fin e -> Num.val x == q -> (x === Fin q)%num = true.
Proof. intros -> H. apply eqb_Fin. exact H. Qed.





(** ** Monotonicity in the quota and in the bundle count *)

Lemma Qdiv_antitone (a q1 q2 : Q) :
  0 <= a -> 0 < q1 -> q1 <= q2 -> a / q2 <= a / q1.
Proof.
  intros Ha H1 H12.
  assert (H2 : 0 < q2) by (apply (Qlt_le_trans _ q1); assumption).
  apply Qle_shift_div_l; [exact H1|].
  setoid_replace (a / q2 * q1) with (a * q1 / q2)
    by (field; intros E; rewrite E in H2; exact (Qlt_irrefl 0 H2)).
  apply Qle_shift_div_r; [exact H2|].
  rewrite (Qmult_comm a q1), (Qmult_comm a q2).
  now apply Qmult_le_compat_r.
Qed.



(** The monotonicity fails at a quota of zero: the total under quota 0 is
    below the total under quota 1. *)
Lemma total_not_antitone_at_zero_quota :
  (toNumber "0" <=? toNumber "1")%num = true
  /\ (Breakdown.total (computed (State.setQuotaARR "0" State.initial))
      <? Breakdown.total (computed (State.setQuotaARR "1" State.initial)))%num
     = true.
Proof. vm_compute. split; reflexivity. Qed.

Lemma bundles_mono (st : State.t) (c1 c2 : string) :
  toQ c1 <= toQ c2 ->
  Num.val (bundles (State.setBundleCount c1 st))
  <= Num.val (bundles (State.setBundleCount c2 st)).
Proof.
  intros Hc. rewrite !bundles_val.
  cbn [Num.val State.bundleCount State.setBundleCount].
  apply Q.max_le_compat_l. rewrite <- Zle_Qle. now apply Qfloor_resp_le.
Qed.

Lemma bundlePct_mono (st : State.t) (c1 c2 : string) :
  toQ c1 <= toQ c2 ->
  Num.val (bundlePct (State.setBundleCount c1 st))
  <= Num.val (bundlePct (State.setBundleCount c2 st)).
Proof.
  intros Hc. rewrite !bundlePct_val. cbn [Num.val].
  change (deals (State.setBundleCount c1 st)) with (deals st).
  change (deals (State.setBundleCount c2 st)) with (deals st).
  now apply guarded_ratio_mono, bundles_mono.
Qed.

(** X19: when the two parsed bonus amounts are ordered,
    [0 <= bundle20Bonus <= bundle35Bonus], the bundle bonus never decreases
    when the bundle count entry is replaced by one that parses to a larger
    number. *)
Theorem bundle_bonus_monotone_in_bundle_count
  (st : State.t) (c1 c2 : string) :
  (toNumber (State.bundle20Bonus st) >=? Fin 0)%num = true ->
  (toNumber (State.bundle20Bonus st)
   <=? toNumber (State.bundle35Bonus st))%num = true ->
  (toNumber c1 <=? toNumber c2)%num = true ->
  (Breakdown.bundleBonus (computed (State.setBundleCount c1 st))
   <=? Breakdown.bundleBonus (computed (State.setBundleCount c2 st)))%num
  = true.
Proof.
  rewrite !toNumber_val, geb_Fin, !leb_Fin.
  fold (toQ c1) (toQ c2) (toQ (State.bundle20Bonus st))
    (toQ (State.bundle35Bonus st)).
  intros H20 H35 Hc.
  cbn [computed Breakdown.bundleBonus]. unfold bundleBonus.
  pose proof (bundlePct_mono st c1 c2 Hc) as Hp.
  rewrite (bundlePct_val (State.setBundleCount c1 st)),
    (bundlePct_val (State.setBundleCount c2 st)) in Hp |- *.
  cbn [Num.val State.bundle20Bonus State.bundle35Bonus State.setBundleCount]
    in Hp |- *.
  set (p1 := guarded_ratio
               (Num.val (bundles (State.setBundleCount c1 st))) _) in *.
  set (p2 := guarded_ratio
               (Num.val (bundles (State.setBundleCount c2 st))) _) in *.
  rewrite !toNumber_val.
  fold (toQ (State.bundle20Bonus st)) (toQ (State.bundle35Bonus st)).
  destruct (Qlt_le_dec p1 0.35) as [A1|A1];
    [rewrite (proj2 (geb_Fin_false p1 0.35) A1)
    |rewrite (proj2 (geb_Fin p1 0.35) A1)];
    (destruct (Qlt_le_dec p2 0.35) as [A2|A2];
     [rewrite (proj2 (geb_Fin_false p2 0.35) A2)
     |rewrite (proj2 (geb_Fin p2 0.35) A2)]);
    try (destruct (Qlt_le_dec p1 0.20) as [B1|B1];
         [rewrite (proj2 (geb_Fin_false p1 0.20) B1)
         |rewrite (proj2 (geb_Fin p1 0.20) B1)]);
    try (destruct (Qlt_le_dec p2 0.20) as [B2|B2];
         [rewrite (proj2 (geb_Fin_false p2 0.20) B2)
         |rewrite (proj2 (geb_Fin p2 0.20) B2)]);
    apply leb_Fin; lra.
Qed.

Lemma bundle_bonus_monotone_in_bundle_count_instance :
  (toNumber (State.bundle20Bonus State.initial) >=? Fin 0)%num = true
  /\ (toNumber (State.bundle20Bonus State.initial)
      <=? toNumber (State.bundle35Bonus State.initial))%num = true
  /\ (toNumber "3" <=? toNumber "9")%num = true
  /\ (Breakdown.bundleBonus (computed (State.setBundleCount "3" State.initial))
      <=? Breakdown.bundleBonus
            (computed (State.setBundleCount "9" State.initial)))%num = true.
Proof.
  assert (H1 : (toNumber (State.bundle20Bonus State.initial) >=? Fin 0)%num
               = true) by reflexivity.
  assert (H2 : (toNumber (State.bundle20Bonus State.initial)
                <=? toNumber (State.bundle35Bonus State.initial))%num = true)
    by reflexivity.
  assert (H3 : (toNumber "3" <=? toNumber "9")%num = true) by reflexivity.
  exact (conj H1 (conj H2 (conj H3
           (bundle_bonus_monotone_in_bundle_count State.initial "3" "9"
              H1 H2 H3)))).
Defined.

(** ** Numerals with a fraction *)

Lemma digits_app_stop (s t : string) (c : ascii) (acc : Z) (n : nat) :
  is_digit c = false ->
  digits (s ++ String c t) acc n
  = (fst (fst (digits s acc n)), snd (fst (digits s acc n)),
     (snd (digits s acc n) ++ String c t)%string).
Proof.
  intros Hc. revert acc n.
  induction s as [|c' s IH]; intros acc n.
  - cbn [append digits]. now rewrite Hc.
  - cbn [append digits]. destruct (is_digit c'); [apply IH|reflexivity].
Qed.

Lemma digits_uint_zero (d : Decimal.uint) :
  exists k, digits (NilZero.string_of_uint d) 0%Z 0%nat
            = (Z.of_uint d, S k, EmptyString).
Proof.
  destruct d; [exists 0%nat; reflexivity|..];
    unfold NilZero.string_of_uint; rewrite digits_uint, uint_value_0;
    eexists; reflexivity.
Qed.

Lemma uint_value_split (f : Decimal.uint) (acc : Z) :
  uint_value f acc
  = (acc * 10 ^ Z.of_nat (Decimal.nb_digits f) + uint_value f 0)%Z.
Proof.
  revert acc.
  induction f as [|f IH|f IH|f IH|f IH|f IH|f IH|f IH|f IH|f IH|f IH];
    intros acc; cbn [uint_value Decimal.nb_digits];
    [change (Z.of_nat 0) with 0%Z; rewrite Z.pow_0_r; lia|..];
    rewrite Nat2Z.inj_succ, Z.pow_succ_r by lia;
    match goal with
    | |- uint_value f ?a = (_ + uint_value f ?b)%Z =>
        rewrite (IH a), (IH b)
    end; ring.
Qed.

Lemma starts_with_minus_uint_app (d : Decimal.uint) (t : string) :
  starts_with_minus (NilZero.string_of_uint d ++ t) = false.
Proof. destruct d; reflexivity. Qed.


